(** * florentino.linear_model.linear: closed-form polynomial regression

    A shallow embedding of [src/florentino/linear_model/linear.py] and the
    properties its specification states about it, followed by the path
    helper of [src/demo/utility.py] and the pen of the drawing window of
    [src/demo/mnist/main.py].

    Scalars.  numpy computes on IEEE doubles; here the entries of an array
    range over an arbitrary real field [F] (exact arithmetic).  Rounding,
    overflow, infinities and NaN are outside the model.

    Arrays.  A two-dimensional array is a MathComp matrix together with its
    two dimensions.  Every entry point of the class rejects arrays of any
    other rank before it computes with them, so for those only the shape
    and the flat contents are kept.

    Store.  Python passes arrays by reference.  The arrays that the caller
    hands to the constructor and the arrays that the object keeps in its
    attributes live in a store of cells; an attribute holds a location,
    and two references to the same buffer are the same location.  Arrays
    that are local to one call are plain values. *)

From Stdlib Require Import String DecimalString.
From HB Require Import structures.
From mathcomp Require Import boot order algebra.

Set Implicit Arguments.
Unset Strict Implicit.
Unset Printing Implicit Defensive.

Import Order.TTheory GRing.Theory Num.Theory.
Local Open Scope ring_scope.

(** ** Exceptions and fallible computations *)

(** [ValueError] is what the class raises itself, and what numpy raises on
    operands whose shapes do not fit; [LinAlgError] is the exception of
    [numpy.linalg].  [Unmodelled] marks the calls of numpy on operands of
    a rank other than 2, which the methods of the class never make. *)
Inductive exn : Type :=
  | ValueError of string
  | LinAlgError of string
  | Unmodelled.

Inductive result (A : Type) : Type :=
  | Ok of A
  | Error of exn.

Arguments Error {A} e.

Definition bind (A B : Type) (c : result A) (k : A -> result B) : result B :=
  match c with
  | Ok a => k a
  | Error e => Error e
  end.

Notation "x <- c ;; k" := (bind c (fun x => k))
  (at level 61, c at next level, right associativity).
Notation "' p <- c ;; k" := (bind c (fun p => k))
  (at level 61, p pattern, c at next level, right associativity).

(** ** The part of numpy the class uses *)

Module np.
Section Numpy.

Variable F : realFieldType.

Inductive ndarray : Type :=
  | Arr2 (n m : nat) (a : 'M[F]_(n, m))
  | ArrN (shp : seq nat) (elts : seq F) of size shp != 2%N.

(** [a.shape] and [a.ndim]. *)
Definition shape (a : ndarray) : seq nat :=
  match a with
  | Arr2 n m _ => [:: n; m]
  | ArrN shp _ _ => shp
  end.

Definition ndim (a : ndarray) : nat := size (shape a).

(** [a.shape[k]], used by the class only after the rank has been tested. *)
Definition dim (a : ndarray) (k : nat) : nat := nth 0%N (shape a) k.

(** Entry [(i, j)] of a matrix, by natural-number indices. *)
Definition get (n m : nat) (A : 'M[F]_(n, m)) (i j : nat) : F :=
  match insub i, insub j with
  | Some i', Some j' => A i' j'
  | _, _ => 0
  end.

Definition entry (a : ndarray) (i j : nat) : F :=
  match a with
  | Arr2 _ _ A => get A i j
  | ArrN _ _ _ => 0
  end.

(** [a.copy()]: a fresh array with the same contents. *)
Definition copy (a : ndarray) : ndarray := a.

(** [np.ones((n, 1))]. *)
Definition ones (n m : nat) : ndarray := Arr2 (const_mx 1 : 'M[F]_(n, m)).

(** [a ** deg], elementwise. *)
Definition power (a : ndarray) (deg : int) : ndarray :=
  match a with
  | Arr2 _ _ A => Arr2 (map_mx (fun v => v ^ deg) A)
  | ArrN shp elts p => @ArrN shp [seq v ^ deg | v <- elts] p
  end.

(** [np.hstack((a, b))] on two-dimensional operands: the rows must agree. *)
Definition hstack (a b : ndarray) : result ndarray :=
  match a, b with
  | Arr2 n m A, Arr2 n' m' B =>
      match n' =P n with
      | ReflectT e => Ok (Arr2 (row_mx A (castmx (e, erefl m') B)))
      | ReflectF _ =>
          Error (ValueError "all the input array dimensions except for the concatenation axis must match exactly")
      end
  | _, _ => Error Unmodelled
  end.

(** [a.T]. *)
Definition transpose (a : ndarray) : result ndarray :=
  match a with
  | Arr2 _ _ A => Ok (Arr2 A^T)
  | ArrN _ _ _ => Error Unmodelled
  end.

(** [a @ b] on two-dimensional operands. *)
Definition matmul (a b : ndarray) : result ndarray :=
  match a, b with
  | Arr2 n m A, Arr2 m' p B =>
      match m' =P m with
      | ReflectT e => Ok (Arr2 (A *m castmx (e, erefl p) B))
      | ReflectF _ =>
          Error (ValueError "matmul: Input operand 1 has a mismatch in its core dimension 0")
      end
  | _, _ => Error Unmodelled
  end.

(** [np.linalg.inv(a)]: the inverse of a square matrix, and [LinAlgError]
    when the matrix has none. *)
Definition linalg_inv (a : ndarray) : result ndarray :=
  match a with
  | Arr2 n m A =>
      match m =P n with
      | ReflectT e =>
          let A' : 'M[F]_n := castmx (erefl n, e) A in
          if A' \in unitmx then Ok (Arr2 (invmx A'))
          else Error (LinAlgError "Singular matrix")
      | ReflectF _ =>
          Error (LinAlgError "Last 2 dimensions of the array must be square")
      end
  | ArrN _ _ _ => Error Unmodelled
  end.

(** Broadcasting of one axis: equal lengths, or one of them is 1. *)
Definition broadcast (n n' : nat) : option nat :=
  if n == n' then Some n
  else if n == 1%N then Some n'
  else if n' == 1%N then Some n
  else None.

Definition bget (n m : nat) (A : 'M[F]_(n, m)) (i j : nat) : F :=
  get A (if n == 1%N then 0%N else i) (if m == 1%N then 0%N else j).

(** [a - b] on two-dimensional operands. *)
Definition subtract (a b : ndarray) : result ndarray :=
  match a, b with
  | Arr2 n m A, Arr2 n' m' B =>
      match broadcast n n', broadcast m m' with
      | Some r, Some c =>
          Ok (Arr2 (\matrix_(i < r, j < c) (bget A i j - bget B i j)))
      | _, _ => Error (ValueError "operands could not be broadcast together")
      end
  | _, _ => Error Unmodelled
  end.

(** [np.sum(a)]: the sum of all entries. *)
Definition sum (a : ndarray) : F :=
  match a with
  | Arr2 _ _ A => \sum_i \sum_j A i j
  | ArrN _ elts _ => \sum_(v <- elts) v
  end.

End Numpy.
End np.

(** [range(lo, hi)]. *)
Definition range (lo hi : int) : seq int :=
  if lo < hi then [seq lo + k%:Z | k <- iota 0 `|hi - lo|%N] else [::].

(** ** The store *)

Definition loc : Type := nat.
Bind Scope nat_scope with loc.

Section Store.

Variable F : realFieldType.

Definition heap : Type := seq (np.ndarray F).

(** A cell that was never allocated reads as a zero-dimensional array. *)
Definition no_array : np.ndarray F := @np.ArrN F [::] [:: 0] isT.

Definition read (h : heap) (l : loc) : np.ndarray F := nth no_array h l.

Definition alloc (h : heap) (a : np.ndarray F) : heap * loc :=
  (rcons h a, size h).

(** Assignment to the entries of the array at [l], as the caller of the
    class can do through any reference to it. *)
Definition write (h : heap) (l : loc) (a : np.ndarray F) : heap :=
  set_nth no_array h l a.

End Store.

(** ** class LinearRegression *)

(** The attributes of an instance.  [x], [y] and [beta] refer to arrays in
    the store. *)
Module LinearRegression.
Record t : Type := Build {
  x : loc;
  y : loc;
  beta : loc;
  num_data : nat;
  num_feature : nat;
  degree : int
}.
End LinearRegression.

Section Class.

Variable F : realFieldType.

Notation ndarray := (np.ndarray F).
Notation heap := (heap F).
Notation self_t := LinearRegression.t.

(** [_check(x, y)] returns the exception to raise, or [None]. *)
Definition _check (x y : ndarray) : option exn :=
  if np.ndim x != 2%N then
    Some (ValueError "x must be a 2-dimensional array")
  else if np.ndim y != 2%N then
    Some (ValueError "y must be a 2-dimensional array")
  else if np.dim y 1 != 1%N then
    Some (ValueError "y must have exactly one column")
  else if np.dim x 0 != np.dim y 0 then
    Some (ValueError "Number of rows in x must match number of rows in y")
  else None.

(** [_polynomial_features(x, degree)]: the loop appends [x ** deg] for
    [deg] in [range(2, degree + 1)]. *)
Definition _polynomial_features (x : ndarray) (degree : int) : result ndarray :=
  foldl (fun poly_features deg =>
           p <- poly_features ;; np.hstack p (np.power x deg))
        (Ok (np.copy x)) (range 2 (degree + 1)).

(** [y.reshape(-1, 1)] is a view of the buffer of [y].  On an array of one
    column, the only case the constructor lets through, the view has the
    shape of [y] itself: the same cell. *)
Definition reshape_column (h : heap) (y : loc) : result loc :=
  if np.shape (read h y) is [:: _; 1%N] then Ok y else Error Unmodelled.

(** [_fit(self, x, y)] stores the augmented matrix in a new cell.  Returns
    the store and the values of [self.x] and [self.y]. *)
Definition _fit (h : heap) (x : ndarray) (y : loc) : result (heap * (loc * loc)) :=
  let _one_column := np.ones F (np.dim x 0) 1 in
  x1 <- np.hstack _one_column x ;;
  let: (h1, self_x) := alloc h x1 in
  self_y <- reshape_column h1 y ;;
  Ok (h1, (self_x, self_y)).

(** [_train(self)] returns the store and the value of [self.beta]. *)
Definition _train (h : heap) (self_x self_y : loc) : result (heap * loc) :=
  let _x := read h self_x in
  xt <- np.transpose _x ;;
  g <- np.matmul xt _x ;;
  gi <- np.linalg_inv g ;;
  xt' <- np.transpose _x ;;
  gx <- np.matmul gi xt' ;;
  b <- np.matmul gx (read h self_y) ;;
  Ok (alloc h b).

Definition __init__ (h : heap) (x_train y_train : loc) (degree : int)
  : result (heap * self_t) :=
  match _check (read h x_train) (read h y_train) with
  | Some e => Error e
  | None =>
      x_train_poly <- _polynomial_features (read h x_train) degree ;;
      ' (h1, (self_x, self_y)) <- _fit h x_train_poly y_train ;;
      match np.shape (read h1 self_x) with
      | [:: num_data; num_feature] =>
          ' (h2, self_beta) <- _train h1 self_x self_y ;;
          Ok (h2, LinearRegression.Build self_x self_y self_beta
                    num_data num_feature degree)
      | _ => Error (ValueError "not enough values to unpack")
      end
  end.

Definition features_msg (k : nat) : string :=
  String.append "x must have "
    (String.append (NilEmpty.string_of_uint (Nat.to_uint k))
                   " features (including polynomial terms)").

(** [predict(self, x)]: the store is returned as it was received. *)
Definition predict (h : heap) (self : self_t) (x : loc) : result (heap * ndarray) :=
  let xv := read h x in
  if np.ndim xv != 2%N then
    Error (ValueError "x must be a 2-dimensional array")
  else
    x_poly <- _polynomial_features xv (LinearRegression.degree self) ;;
    if np.dim x_poly 1 != (LinearRegression.num_feature self - 1)%N then
      Error (ValueError (features_msg (LinearRegression.num_feature self - 1)))
    else
      let _one_column := np.ones F (np.dim xv 0) 1 in
      x1 <- np.hstack _one_column x_poly ;;
      r <- np.matmul x1 (read h (LinearRegression.beta self)) ;;
      Ok (h, r).

(** [para(self)] returns the reference held in [self.beta]. *)
Definition para (self : self_t) : loc := LinearRegression.beta self.

(** [loss(self)]. *)
Definition loss (h : heap) (self : self_t) : result (heap * F) :=
  xb <- np.matmul (read h (LinearRegression.x self))
                  (read h (LinearRegression.beta self)) ;;
  r <- np.subtract (read h (LinearRegression.y self)) xb ;;
  Ok (h, np.sum (np.power r 2)).

End Class.


(** ** Vocabulary of the specification *)

(** The number of blocks [_polynomial_features] produces for a degree. *)
Definition blocks (degree : int) : nat :=
  if degree is Posz k.+1 then k.+1 else 1%N.

Section Vocabulary.

Variable F : realFieldType.
Implicit Types (h : heap F) (self : LinearRegression.t).

(** Block [b] of the columns of [P] holds the powers [b + 1] of [X0],
    for each of the first [k] blocks. *)
Definition powers_upto (n m : nat) (X0 : 'M[F]_(n, m)) (k w : nat)
    (P : 'M[F]_(n, w)) : Prop :=
  forall i b c : nat, (i < n)%N -> (b < k)%N -> (c < m)%N ->
    np.get P i (b * m + c) = np.get X0 i c ^+ b.+1.

(** The expansion in the words of the specification: [k] blocks of the
    width of [X0] side by side, block [b] holding the entries of [X0]
    raised to the power [b + 1].  Column [j] lies in block [j %/ m] and
    comes from column [j %% m] of [X0]. *)
Definition expansion (n m : nat) (X0 : 'M[F]_(n, m)) (k : nat) : 'M[F]_(n, k * m) :=
  \matrix_(i < n, j < k * m) np.get X0 i (j %% m) ^+ (j %/ m).+1.

(** The augmented matrix: a column of ones, then the expanded features. *)
Definition augmented (n w : nat) (P : 'M[F]_(n, w)) : 'M[F]_(n, 1 + w) :=
  row_mx (const_mx 1) P.

(** The four conditions under which the constructor rejects its arguments. *)
Definition invalid_shape (x y : np.ndarray F) : bool :=
  [|| np.ndim x != 2%N, np.ndim y != 2%N, np.dim y 1 != 1%N
    | np.dim x 0 != np.dim y 0].

(** The arrays of the model are in [h1] what they were in [h]. *)
Definition intact h self h1 : Prop :=
  [/\ read h1 (LinearRegression.x self) = read h (LinearRegression.x self),
      read h1 (LinearRegression.y self) = read h (LinearRegression.y self)
    & read h1 (LinearRegression.beta self) = read h (LinearRegression.beta self)].

(** The same attributes with another recorded degree. *)
Definition with_degree self (d : int) : LinearRegression.t :=
  LinearRegression.Build (LinearRegression.x self) (LinearRegression.y self)
    (LinearRegression.beta self) (LinearRegression.num_data self)
    (LinearRegression.num_feature self) d.

(** The value a method returns, without the store. *)
Definition returned (A : Type) (c : result (heap F * A)) : result A :=
  ' p <- c ;; Ok p.2.

End Vocabulary.

(** ** A training set of two points *)

(** The points (0, 1) and (1, 3) and a query at 0; the store holds the
    feature matrix, the target matrix and the query, in this order. *)
Module TwoPoints.
Section TwoPoints.

Variable F : realFieldType.

Definition features : 'M[F]_(1 + 1, 1) := col_mx 0 1%:M.
Definition targets : 'M[F]_(1 + 1, 1) := col_mx 1%:M (3%:R)%:M.
Definition query : 'M[F]_(1, 1) := 0.

Definition store : heap F :=
  [:: np.Arr2 features; np.Arr2 targets; np.Arr2 query].

Definition design : 'M[F]_(1 + 1, 1 + 1 * 1) := augmented (expansion features 1).

Definition coefficients : 'M[F]_(1 + 1 * 1, 1) :=
  invmx (design^T *m design) *m design^T *m targets.

(** The store and the object the constructor leaves. *)
Definition trained_store : heap F :=
  rcons (rcons store (np.Arr2 design)) (np.Arr2 coefficients).

Definition model (d : int) : LinearRegression.t :=
  LinearRegression.Build 3 1 4 2 2 d.

(** After training the caller allocates one more array, a query of two
    columns, which does not fit the model of one feature. *)
Definition wide_query : 'M[F]_(1, 2) := 0.
Definition later_store : heap F := rcons trained_store (np.Arr2 wide_query).

(** The caller adds 1 to the intercept through the reference that [para]
    returned. *)
Definition bumped : np.ndarray F := np.Arr2 (coefficients + col_mx 1%:M 0).
Definition mutated_store : heap F := write trained_store (para (model 1)) bumped.

(** A training set whose two feature columns are equal. *)
Definition collinear_store : heap F :=
  [:: np.Arr2 (const_mx 1 : 'M[F]_(1, 2)); np.Arr2 (0 : 'M[F]_(1, 1))].

End TwoPoints.
End TwoPoints.

(** * demo/utility.py *)

HB.instance Definition _ := hasDecEq.Build string String.eqb_spec.

Module utility.

(** An absolute [pathlib.Path] as the list of its components below the
    root; the empty list is the root. *)
Definition Path : Type := seq string.

(** [p.name]: the last component, and the empty string for the root. *)
Definition name (p : Path) : string := last EmptyString p.

(** [p.parent]; the parent of the root is the root. *)
Definition parent (p : Path) : Path := take (size p).-1 p.

Section RootProject.

(** [p / s] of pathlib. *)
Variable joinpath : Path -> string -> Path.

(** The loop [while cwd.name != 'florentino': cwd = cwd.parent], with a
    bound on the number of tests of its condition. *)
Fixpoint ascend (fuel : nat) (cwd : Path) : option Path :=
  if fuel is k.+1 then
    if name cwd != "florentino"%string then ascend k (parent cwd)
    else Some cwd
  else None.

(** [root_project(cd_to)] in the working directory [getcwd]; [None] when
    the loop has not ended within [fuel] tests.  An absent [cd_to] and the
    empty string are both false in [if cd_to:]. *)
Definition root_project (fuel : nat) (getcwd : Path) (cd_to : option string)
  : option Path :=
  if ascend fuel getcwd is Some cwd then
    Some (if cd_to is Some s then
            if s != EmptyString then joinpath cwd s else cwd
          else cwd)
  else None.

End RootProject.

End utility.

(** * demo/mnist/main.py *)

(** Of [DrawApp] the pen and the two drawings are modelled: the items of
    the tkinter canvas and the commands sent to the [ImageDraw] of the
    28 by 28 image.  What tkinter and PIL render from them, the widgets
    and the predictor are outside the model. *)
Module DrawApp.

Definition LINE_COLOR : string := "white".
Definition BACKGROUND : string := "black".
Definition IMG_SIZE : int := 560.
Definition RATIO : int := (IMG_SIZE %/ 28)%Z.

(** A pointer event of tkinter, with its [x] and [y]. *)
Module Event.
Record t : Type := Build { x : int; y : int }.
End Event.

(** [canvas.create_line(x0, y0, x1, y1, width=..., fill=...)]; the other
    options of the call are constants. *)
Inductive canvas_item : Type :=
  | create_line (x0 y0 x1 y1 : int) (width : int) (fill : string).

(** [draw.line([p, q], fill=..., width=...)]. *)
Inductive draw_command : Type :=
  | line (p q : int * int) (fill : string) (width : int).

(** The attributes the callbacks change: the items on the canvas, the
    commands drawn on the current image, and the last pointer position. *)
Record t : Type := Build {
  canvas : seq canvas_item;
  image : seq draw_command;
  old_x : option int;
  old_y : option int
}.

(** The state [__init__] leaves: an empty canvas, a new image, no last
    position. *)
Definition init : t := Build [::] [::] None None.

(** The truth value of an attribute that is [None] or an integer. *)
Definition truthy (v : option int) : bool :=
  if v is Some n then n != 0 else false.

Definition paint (self : t) (event : Event.t) : t :=
  let x := Event.x event in
  let y := Event.y event in
  let drawn :=
    match old_x self, old_y self with
    | Some ox, Some oy =>
        if truthy (old_x self) && truthy (old_y self) then
          (rcons (canvas self) (create_line ox oy x y RATIO LINE_COLOR),
           rcons (image self)
                 (line ((ox %/ RATIO)%Z, (oy %/ RATIO)%Z)
                       ((x %/ RATIO)%Z, (y %/ RATIO)%Z) LINE_COLOR 2))
        else (canvas self, image self)
    | _, _ => (canvas self, image self)
    end in
  Build drawn.1 drawn.2 (Some x) (Some y).

Definition reset_drawing (self : t) (event : Event.t) : t :=
  Build (canvas self) (image self) None None.

(** [canvas.delete("all")] and a new image; the last position stays. *)
Definition reset_canvas (self : t) : t :=
  Build [::] [::] (old_x self) (old_y self).

(** [int(q)]: truncation toward zero. *)
Definition py_int (q : rat) : int :=
  if 0 <= q then Num.floor q else Num.ceil q.

(** [str(z)] of an integer. *)
Definition str (z : int) : string :=
  match z with
  | Posz n => NilEmpty.string_of_uint (Nat.to_uint n)
  | Negz n => String.append "-" (NilEmpty.string_of_uint (Nat.to_uint n.+1))
  end.

(** [int((s / 2) - (w / 2))], the expression of [x_position] and of
    [y_position]; the two quotients are true divisions. *)
Definition position (s w : int) : int :=
  py_int (s%:~R / 2 - w%:~R / 2).

(** [_screen_init_size(ww, wh, sw, sh)] returns the string it gives to
    [root.geometry]. *)
Definition _screen_init_size (ww wh sw sh : int) : string :=
  let x_position := position sw ww in
  let y_position := position sh wh in
  String.append (str ww)
    (String.append "x"
       (String.append (str wh)
          (String.append "+"
             (String.append (str x_position)
                (String.append "+" (str y_position)))))).

End DrawApp.


(** ** Vocabulary for the drawing *)

Section Drawing.

Import DrawApp.

(** Both coordinates of the position are true in [if old_x and old_y]. *)
Definition pen_down (a : Event.t) : bool :=
  (Event.x a != 0) && (Event.y a != 0).

(** The two commands [paint] issues for a move from [a] to [b]. *)
Definition canvas_segment (a b : Event.t) : canvas_item :=
  create_line (Event.x a) (Event.y a) (Event.x b) (Event.y b) RATIO LINE_COLOR.

Definition image_segment (a b : Event.t) : draw_command :=
  line ((Event.x a %/ RATIO)%Z, (Event.y a %/ RATIO)%Z)
       ((Event.x b %/ RATIO)%Z, (Event.y b %/ RATIO)%Z) LINE_COLOR 2.

(** The moves between consecutive positions, [prev] first, that start
    from a position with the pen down. *)
Definition joins (prev : Event.t) (evs : seq Event.t) : seq (Event.t * Event.t) :=
  filter (fun p => pen_down p.1) (zip (prev :: evs) evs).

(** The callbacks that [__init__] binds and that change the drawing:
    pointer motion with the button held, button release, and the Reset
    button. *)
Inductive callback : Type :=
  | Motion of Event.t
  | Release of Event.t
  | ResetButton.

Definition dispatch (self : DrawApp.t) (cb : callback) : DrawApp.t :=
  match cb with
  | Motion e => paint self e
  | Release e => reset_drawing self e
  | ResetButton => reset_canvas self
  end.

Definition in_canvas (x y : int) : bool :=
  (0 <= x < IMG_SIZE) && (0 <= y < IMG_SIZE).

Definition in_image (p : int * int) : bool :=
  (0 <= p.1 < 28) && (0 <= p.2 < 28).

Definition motion_in_canvas (cb : callback) : bool :=
  if cb is Motion e then in_canvas (Event.x e) (Event.y e) else true.

Definition command_in_image (c : draw_command) : bool :=
  let: line p q _ _ := c in in_image p && in_image q.

(** What the callbacks keep true when every motion is inside the canvas. *)
Definition drawing_ok (self : DrawApp.t) : bool :=
  all command_in_image (image self)
  && match old_x self, old_y self with
     | Some x, Some y => in_canvas x y
     | None, None => true
     | _, _ => false
     end.

End Drawing.

(** ** Data for the examples *)

(** Targets that lie on the line [y = 1 + 2 x] over the features of the
    two points. *)
Module LineFit.
Section LineFit.

Variable F : realFieldType.

Definition coefficients : 'M[F]_(1 + 1 * 1, 1) := col_mx 1%:M (2%:R)%:M.
Definition targets : 'M[F]_(1 + 1, 1) := TwoPoints.design F *m coefficients.

Definition store : heap F :=
  [:: np.Arr2 (TwoPoints.features F); np.Arr2 targets].

Definition fitted : 'M[F]_(1 + 1 * 1, 1) :=
  invmx ((TwoPoints.design F)^T *m TwoPoints.design F)
  *m (TwoPoints.design F)^T *m targets.

Definition trained_store : heap F :=
  rcons (rcons store (np.Arr2 (TwoPoints.design F))) (np.Arr2 fitted).

Definition model : LinearRegression.t :=
  LinearRegression.Build 2 1 3 2 2 1.

End LineFit.
End LineFit.

(** The trained store of the two points with one more array in it: the
    query stacked on itself. *)
Module Batch.
Definition store (F : realFieldType) : heap F :=
  rcons (TwoPoints.trained_store F)
        (np.Arr2 (col_mx (TwoPoints.query F) (TwoPoints.query F))).
End Batch.

Module Session.

(** A working directory below a directory named [florentino], and one
    that is not. *)
Definition inside : utility.Path :=
  [:: "home"; "user"; "florentino"; "demo"; "mnist"]%string.
Definition outside : utility.Path := [:: "tmp"; "work"]%string.

(** Joining one component. *)
Definition join (p : utility.Path) (s : string) : utility.Path := rcons p s.

(** A stroke that touches the line [x = 0], and a session with a release
    and a reset in it. *)
Definition stroke : seq DrawApp.Event.t :=
  [:: DrawApp.Event.Build 30 45; DrawApp.Event.Build 0 50;
      DrawApp.Event.Build 70 85; DrawApp.Event.Build 95 99].

Definition clicks : seq callback :=
  [:: Motion (DrawApp.Event.Build 10 10); Motion (DrawApp.Event.Build 559 0);
      Release (DrawApp.Event.Build 700 (-3)); Motion (DrawApp.Event.Build 20 30);
      ResetButton; Motion (DrawApp.Event.Build 40 50)].

End Session.

(** * Lemmas *)

(** ** numpy on two-dimensional operands *)

Section NumpyFacts.

Variable F : realFieldType.

Lemma getE (n m : nat) (A : 'M[F]_(n, m)) (i : 'I_n) (j : 'I_m) :
  np.get A i j = A i j.
Proof. by rewrite /np.get !valK. Qed.

Lemma get_ord (n m : nat) (A : 'M[F]_(n, m)) (i j : nat)
      (Hi : (i < n)%N) (Hj : (j < m)%N) :
  np.get A i j = A (Ordinal Hi) (Ordinal Hj).
Proof. by rewrite -getE. Qed.

(** Two arrays with the same shape and entries are the same array. *)
Lemma Arr2_ext (n m m' : nat) (A : 'M[F]_(n, m)) (B : 'M[F]_(n, m')) :
  m = m' -> (forall i j, (i < n)%N -> (j < m)%N -> np.get A i j = np.get B i j) ->
  np.Arr2 A = np.Arr2 B.
Proof.
move=> e; case: m' / e B => B H; congr np.Arr2.
by apply/matrixP => i j; rewrite -!getE H.
Qed.

(** Adding a matrix with a nonzero entry gives another array. *)
Lemma Arr2_add_neq (n m : nat) (A C : 'M[F]_(n, m)) (i : 'I_n) (j : 'I_m) :
  C i j != 0 -> np.Arr2 (A + C) <> np.Arr2 A.
Proof.
move=> HC /(congr1 (fun a => np.entry a i j)); rewrite /np.entry !getE mxE.
by move/eqP; rewrite -subr_eq0 addrAC subrr add0r (negbTE HC).
Qed.

Lemma get_row_mx (n w1 w2 : nat) (A : 'M[F]_(n, w1)) (B : 'M[F]_(n, w2))
      (i j : nat) :
  (i < n)%N -> (j < w1 + w2)%N ->
  np.get (row_mx A B) i j = if (j < w1)%N then np.get A i j else np.get B i (j - w1).
Proof.
move=> Hi Hj; rewrite (get_ord _ Hi Hj) mxE.
case: splitP => k /= Hk.
  have Hj1 : (j < w1)%N by rewrite Hk.
  by rewrite Hj1 (get_ord _ Hi Hj1); congr (A _ _); apply: val_inj.
have Hj2 : (j - w1 < w2)%N by rewrite Hk addKn.
rewrite ltnNge Hk leq_addr /= -Hk (get_ord _ Hi Hj2).
by congr (B _ _); apply: val_inj; rewrite /= Hk addKn.
Qed.

Lemma hstackE (n m m' : nat) (A : 'M[F]_(n, m)) (B : 'M[F]_(n, m')) :
  np.hstack (np.Arr2 A) (np.Arr2 B) = Ok (np.Arr2 (row_mx A B)).
Proof.
rewrite /np.hstack; case: eqP => // e.
by rewrite (eq_axiomK e) castmx_id.
Qed.

Lemma matmulE (n m p : nat) (A : 'M[F]_(n, m)) (B : 'M[F]_(m, p)) :
  np.matmul (np.Arr2 A) (np.Arr2 B) = Ok (np.Arr2 (A *m B)).
Proof.
rewrite /np.matmul; case: eqP => // e.
by rewrite (eq_axiomK e) castmx_id.
Qed.

Lemma linalg_invE (n : nat) (A : 'M[F]_n) :
  np.linalg_inv (np.Arr2 A) =
  if A \in unitmx then Ok (np.Arr2 (invmx A))
  else Error (LinAlgError "Singular matrix").
Proof.
rewrite /np.linalg_inv; case: eqP => // e.
by rewrite (eq_axiomK e) castmx_id.
Qed.

Lemma broadcastnn (n : nat) : np.broadcast n n = Some n.
Proof. by rewrite /np.broadcast eqxx. Qed.

Lemma bgetE (n m : nat) (A : 'M[F]_(n, m)) (i : 'I_n) (j : 'I_m) :
  np.bget A i j = A i j.
Proof.
rewrite /np.bget.
have -> : (if n == 1%N then 0%N else i) = i :> nat.
  by case: eqP i => // -> i; rewrite ord1.
have -> : (if m == 1%N then 0%N else j) = j :> nat.
  by case: eqP j => // -> j; rewrite ord1.
exact: getE.
Qed.

Lemma subtractE (n m : nat) (A B : 'M[F]_(n, m)) :
  np.subtract (np.Arr2 A) (np.Arr2 B) = Ok (np.Arr2 (A - B)).
Proof.
rewrite /np.subtract !broadcastnn; congr (Ok (np.Arr2 _)).
by apply/matrixP => i j; rewrite !mxE !bgetE.
Qed.

End NumpyFacts.

Arguments np.hstack : simpl never.
Arguments np.matmul : simpl never.
Arguments np.linalg_inv : simpl never.
Arguments np.subtract : simpl never.

(** ** The loop of [_polynomial_features] *)

Lemma range_small (d : int) : d < 2 -> range 2 (d + 1) = [::].
Proof.
move=> Hd; rewrite /range ifF //.
by apply/negbTE; rewrite -leNgt -lerBrDr.
Qed.

Lemma range_degree (k : nat) :
  range 2 (k.+1%:Z + 1) = [seq Posz i | i <- iota 2 k].
Proof.
case: k => [|k]; first by rewrite range_small.
have Hlt : (2 : int) < k.+2%:Z + 1 by rewrite -ltrBlDr.
have Hlen : k.+2%:Z + 1 - 2 = k.+1%:Z.
  by rewrite [k.+2%:Z]intS [1 + _]addrC -[_ + 1 + 1]addrA addrK.
rewrite /range Hlt Hlen absz_nat -[in RHS](addn0 2%N) iotaDl -map_comp.
by apply: eq_map => i /=; rewrite PoszD.
Qed.

Lemma block_index (b k c m : nat) :
  (b < k)%N -> (c < m)%N -> (b * m + c < k * m)%N.
Proof.
move=> Hb Hc; apply: (@leq_trans (b.+1 * m)%N).
  by rewrite mulSn addnC ltn_add2r.
by rewrite leq_mul2r Hb orbT.
Qed.

Section PolynomialFeatures.

Variable F : realFieldType.
Variables (n m : nat) (X0 : 'M[F]_(n, m)).

Lemma poly_loop (len : nat) : forall (k w : nat) (P : 'M[F]_(n, w)),
  w = (k * m)%N -> powers_upto X0 k P ->
  exists (w' : nat) (P' : 'M[F]_(n, w')),
    [/\ foldl (fun poly_features deg =>
                 p <- poly_features ;; np.hstack p (np.power (np.Arr2 X0) deg))
              (Ok (np.Arr2 P)) [seq Posz i | i <- iota k.+1 len]
        = Ok (np.Arr2 P'),
        w' = ((k + len) * m)%N
      & powers_upto X0 (k + len) P'].
Proof.
elim: len => [|len IH] k w P Hw HP.
  by exists w, P; rewrite addn0.
rewrite [iota _ _]/= [map _ _]/= [foldl _ _ _]/= hstackE.
set Q := map_mx _ X0.
have [] := IH k.+1 (w + m)%N (row_mx P Q).
- by rewrite Hw mulSn addnC.
- move=> i b c Hi Hb Hc.
  have Hidx : (b * m + c < w + m)%N.
    by rewrite Hw [(k * m + m)%N]addnC -mulSn; apply: block_index.
  rewrite get_row_mx //.
  move: Hb; rewrite ltnS leq_eqVlt => /orP [/eqP -> | Hb].
    have -> : (k * m + c < w)%N = false by rewrite Hw ltnNge leq_addr.
    have -> : (k * m + c - w = c)%N by rewrite Hw addKn.
    by rewrite /Q !(get_ord _ Hi Hc) mxE.
  have -> : (b * m + c < w)%N by rewrite Hw; apply: block_index.
  exact: HP.
move=> w' [P' [HP' Hw' Hpow]]; exists w', P'.
by rewrite -addSnnS.
Qed.

End PolynomialFeatures.

(** ** The store *)

Section StoreFacts.

Variable F : realFieldType.
Implicit Types (h : heap F) (l : loc) (a : np.ndarray F).

Lemma read_Arr2_bound h l (n m : nat) (A : 'M[F]_(n, m)) :
  read h l = np.Arr2 A -> (l < size h)%N.
Proof.
rewrite /read ltnNge; case: leqP => // Hl.
by rewrite nth_default.
Qed.

Lemma read_rcons h a l : (l < size h)%N -> read (rcons h a) l = read h l.
Proof. by move=> Hl; rewrite /read nth_rcons Hl. Qed.

Lemma read_alloc h a : read (rcons h a) (size h) = a.
Proof. by rewrite /read nth_rcons ltnn eqxx. Qed.

Lemma read_alloc2 h a b : read (rcons (rcons h a) b) (size h).+1 = b.
Proof. by rewrite -(size_rcons h a) read_alloc. Qed.

Lemma read_alloc1 h a b : read (rcons (rcons h a) b) (size h) = a.
Proof. by rewrite read_rcons ?size_rcons // read_alloc. Qed.

Lemma read_write_same h l a : read (write h l a) l = a.
Proof. by rewrite /read /write nth_set_nth /= eqxx. Qed.

Lemma read_write_other h l l' a : l' != l -> read (write h l a) l' = read h l'.
Proof. by move=> Hl; rewrite /read /write nth_set_nth /= (negbTE Hl). Qed.

End StoreFacts.

Arguments read : simpl never.
Arguments write : simpl never.

(** ** The methods on two-dimensional arguments *)

Lemma blocks_gt0 (d : int) : (0 < blocks d)%N.
Proof. by case: d => [[|k]|k]. Qed.

Section ClassFacts.

Variable F : realFieldType.
Implicit Types (h : heap F) (self : LinearRegression.t).

Lemma expansion_block (n m : nat) (X0 : 'M[F]_(n, m)) (k i b c : nat) :
  (i < n)%N -> (b < k)%N -> (c < m)%N ->
  np.get (expansion X0 k) i (b * m + c) = np.get X0 i c ^+ b.+1.
Proof.
move=> Hi Hb Hc.
rewrite (get_ord _ Hi (block_index Hb Hc)) mxE /=.
by rewrite divnMDl ?(leq_ltn_trans _ Hc) // modnMDl divn_small // modn_small // addn0.
Qed.

Lemma expansion1 (n m : nat) (X0 : 'M[F]_(n, m)) :
  np.Arr2 (expansion X0 1) = np.Arr2 X0.
Proof.
apply: Arr2_ext; rewrite ?mul1n // => i j Hi Hj; rewrite mul1n in Hj.
by rewrite -[j in LHS]add0n -[X in (X + j)%N](mul0n m) expansion_block ?expr1.
Qed.

Lemma polynomial_features_small (x : np.ndarray F) (d : int) :
  d < 2 -> _polynomial_features x d = Ok x.
Proof. by move=> Hd; rewrite /_polynomial_features range_small. Qed.

Lemma polynomial_featuresE (n m : nat) (X0 : 'M[F]_(n, m)) (d : int) :
  _polynomial_features (np.Arr2 X0) d = Ok (np.Arr2 (expansion X0 (blocks d))).
Proof.
have base : powers_upto X0 1 X0.
  by move=> i b c Hi; rewrite ltnS leqn0 => /eqP -> Hc; rewrite mul0n add0n expr1.
case: d => [[|k]|k]; try by rewrite polynomial_features_small // expansion1.
rewrite /_polynomial_features range_degree /blocks.
have Hm1 : m = (1 * m)%N by rewrite mul1n.
have [w [P [-> Hw Hpow]]] := poly_loop k Hm1 base.
congr Ok; apply: Arr2_ext; first by rewrite Hw add1n.
move=> i j Hi Hj.
have Hj' : (j < k.+1 * m)%N by rewrite -add1n -Hw.
have Hm : (0 < m)%N by case: (posnP m) Hj' => // ->; rewrite muln0.
have Hb : (j %/ m < k.+1)%N by rewrite ltn_divLR.
have Hc : (j %% m < m)%N by rewrite ltn_pmod.
rewrite [in LHS](divn_eq j m) [in RHS](divn_eq j m) expansion_block //.
by rewrite -[k.+1]add1n in Hb; rewrite Hpow.
Qed.

Lemma check_valid (n m : nat) (X0 : 'M[F]_(n, m)) (Y : 'M[F]_(n, 1)) :
  _check (np.Arr2 X0) (np.Arr2 Y) = None.
Proof. by rewrite /_check /np.ndim /np.dim /= eqxx. Qed.

(** The constructor on a valid training pair. *)
Lemma init_valid h (x_train y_train : loc) (d : int) (n m : nat)
      (X0 : 'M[F]_(n, m)) (Y : 'M[F]_(n, 1)) :
  read h x_train = np.Arr2 X0 -> read h y_train = np.Arr2 Y ->
  let X := augmented (expansion X0 (blocks d)) in
  __init__ h x_train y_train d =
  if X^T *m X \in unitmx then
    Ok (rcons (rcons h (np.Arr2 X))
              (np.Arr2 (invmx (X^T *m X) *m X^T *m Y)),
        LinearRegression.Build (size h) y_train (size h).+1 n
                               (1 + blocks d * m) d)
  else Error (LinAlgError "Singular matrix").
Proof.
move=> Hx Hy X.
have Hly := read_Arr2_bound Hy.
rewrite /__init__ Hx Hy check_valid polynomial_featuresE /=.
rewrite /_fit /np.dim /= /np.ones hstackE /= /reshape_column read_rcons // Hy /=.
rewrite read_alloc /= /_train read_alloc /= matmulE /= linalg_invE.
rewrite -/(augmented _) -/X.
case: ifP => //= _.
by rewrite matmulE /= read_rcons // Hy matmulE /= size_rcons.
Qed.

(** What a successful construction has built. *)
Lemma init_trained h (x_train y_train : loc) (d : int) (n m : nat)
      (X0 : 'M[F]_(n, m)) (Y : 'M[F]_(n, 1)) h' self :
  read h x_train = np.Arr2 X0 -> read h y_train = np.Arr2 Y ->
  __init__ h x_train y_train d = Ok (h', self) ->
  let X := augmented (expansion X0 (blocks d)) in
  [/\ X^T *m X \in unitmx,
      h' = rcons (rcons h (np.Arr2 X))
                 (np.Arr2 (invmx (X^T *m X) *m X^T *m Y))
    & self = LinearRegression.Build (size h) y_train (size h).+1 n
                                    (1 + blocks d * m) d].
Proof.
move=> Hx Hy; rewrite (init_valid d Hx Hy) /=.
by case: ifP => // Hu [<- <-].
Qed.

Lemma predict_valid h self (x : loc) (k m w : nat) (Xq : 'M[F]_(k, m))
      (E : 'M[F]_(k, w)) (B : 'M[F]_(1 + w, 1)) :
  read h x = np.Arr2 Xq ->
  _polynomial_features (np.Arr2 Xq) (LinearRegression.degree self) = Ok (np.Arr2 E) ->
  LinearRegression.num_feature self = (1 + w)%N ->
  read h (LinearRegression.beta self) = np.Arr2 B ->
  predict h self x = Ok (h, np.Arr2 (augmented E *m B)).
Proof.
move=> Hx HE Hnf HB.
have Hw : (LinearRegression.num_feature self - 1)%N = w.
  by rewrite Hnf add1n subn1.
rewrite /predict Hx /np.ndim /= HE /= /np.dim /= Hw eqxx /=.
by rewrite /np.ones hstackE /= HB matmulE.
Qed.

Lemma predict_mismatch h self (x : loc) (k m w : nat) (Xq : 'M[F]_(k, m))
      (E : 'M[F]_(k, w)) :
  read h x = np.Arr2 Xq ->
  _polynomial_features (np.Arr2 Xq) (LinearRegression.degree self) = Ok (np.Arr2 E) ->
  w != (LinearRegression.num_feature self - 1)%N ->
  predict h self x =
  Error (ValueError (features_msg (LinearRegression.num_feature self - 1))).
Proof.
move=> Hx HE Hw.
by rewrite /predict Hx /np.ndim /= HE /= /np.dim /= Hw.
Qed.

Lemma loss_valid h self (n w : nat) (X : 'M[F]_(n, w)) (B : 'M[F]_(w, 1))
      (Y : 'M[F]_(n, 1)) :
  read h (LinearRegression.x self) = np.Arr2 X ->
  read h (LinearRegression.beta self) = np.Arr2 B ->
  read h (LinearRegression.y self) = np.Arr2 Y ->
  loss h self = Ok (h, \sum_(i < n) (Y i 0 - (X *m B) i 0) ^+ 2).
Proof.
move=> HX HB HY.
rewrite /loss HX HB HY matmulE /= subtractE /=.
congr (Ok (_, _)); apply: eq_bigr => i _.
by rewrite big_ord1 !mxE.
Qed.

End ClassFacts.

(** ** Validation *)

Section Validation.

Variable F : realFieldType.

Lemma check_invalid (x y : np.ndarray F) :
  invalid_shape x y -> exists msg, _check x y = Some (ValueError msg).
Proof.
rewrite /invalid_shape /_check.
case: ifP => [_ _|_]; first by eexists.
case: ifP => [_ _|_]; first by eexists.
case: ifP => [_ _|_]; first by eexists.
by case: ifP => [_ _|_] //; eexists.
Qed.

Lemma valid_shape_inv (x y : np.ndarray F) :
  ~~ invalid_shape x y ->
  exists (n m : nat) (X0 : 'M[F]_(n, m)) (Y : 'M[F]_(n, 1)),
    x = np.Arr2 X0 /\ y = np.Arr2 Y.
Proof.
rewrite /invalid_shape /np.ndim /np.dim.
case: x => [n m X0|shp elts p] /=; last by rewrite p.
case: y => [n' m' Y|shp elts p] /=; last by rewrite p.
rewrite negb_or !negbK => /andP [/eqP Hm /eqP Hn].
by subst m' n'; exists n, m, X0, Y.
Qed.

End Validation.

(** ** Reach of the model *)

(** The calls of numpy on operands of a rank other than 2 are not
    modelled; the constructor never makes one, nor does [predict] on a
    trained model. *)
Section Reach.

Variable F : realFieldType.
Implicit Types (h : heap F) (self : LinearRegression.t) (d : int).

Lemma init_modelled h (x_train y_train : loc) d :
  __init__ h x_train y_train d <> Error Unmodelled.
Proof.
case Hinv: (invalid_shape (read h x_train) (read h y_train)).
  by have [msg Hmsg] := check_invalid Hinv; rewrite /__init__ Hmsg.
have [n [m [X0 [Y [Hx Hy]]]]] := valid_shape_inv (negbT Hinv).
by rewrite (init_valid d Hx Hy) /=; case: ifP.
Qed.

Lemma predict_modelled h0 (x_train y_train : loc) d (n m : nat)
      (X0 : 'M[F]_(n, m)) (Y : 'M[F]_(n, 1)) h self h1 (x : loc) :
  read h0 x_train = np.Arr2 X0 -> read h0 y_train = np.Arr2 Y ->
  __init__ h0 x_train y_train d = Ok (h, self) -> intact h self h1 ->
  predict h1 self x <> Error Unmodelled.
Proof.
move=> Hx Hy Hinit [_ _ Hb1].
have [_ Hh Hself] := init_trained Hx Hy Hinit.
case Hq: (read h1 x) => [k m' Xq|shp elts p]; last first.
  by rewrite /predict Hq /np.ndim /= p.
have HE : _polynomial_features (np.Arr2 Xq) (LinearRegression.degree self)
          = Ok (np.Arr2 (expansion Xq (blocks d))).
  by rewrite Hself /=; apply: polynomial_featuresE.
have Hnf : (LinearRegression.num_feature self - 1)%N = (blocks d * m)%N.
  by rewrite Hself /= add1n subn1.
case Hw: ((blocks d * m')%N == (LinearRegression.num_feature self - 1)%N).
  move: Hw; rewrite Hnf eqn_pmul2l ?blocks_gt0 // => /eqP Hm.
  have HB : read h1 (LinearRegression.beta self) = read h (size h0).+1.
    by rewrite Hb1 Hself.
  rewrite Hh read_alloc2 in HB.
  by subst m'; rewrite (predict_valid Hq HE _ HB) // Hself.
by rewrite (predict_mismatch Hq HE) ?Hw.
Qed.

End Reach.

(** ** Singular systems *)

Section Singular.

Variable F : realFieldType.

(** Two equal columns of [X] give two equal rows of [X^T X]. *)
Lemma gram_equal_columns (n w : nat) (X : 'M[F]_(n, w)) (c1 c2 : 'I_w) :
  c1 != c2 -> (forall i, X i c1 = X i c2) -> X^T *m X \notin unitmx.
Proof.
move=> Hc Hcol; rewrite unitmxE unitfE negbK.
apply/eqP/(determinant_alternate Hc) => k.
by rewrite !mxE; apply: eq_bigr => i _; rewrite !mxE Hcol.
Qed.

(** Column [c] of [X0] is column [1 + c] of the augmented expansion. *)
Lemma augmented_first_block (n m k : nat) (X0 : 'M[F]_(n, m)) (c : 'I_m)
      (Hc : (c < k.+1 * m)%N) (i : 'I_n) :
  augmented (expansion X0 k.+1) i (rshift 1 (Ordinal Hc)) = X0 i c.
Proof.
have := @expansion_block F n m X0 k.+1 i 0 c (ltn_ord i) (ltn0Sn k) (ltn_ord c).
rewrite mul0n add0n expr1 getE => <-.
by rewrite /augmented row_mxEr -getE.
Qed.

End Singular.

(** ** The training set of two points *)

Section TwoPointsFacts.

Variable F : realFieldType.

Lemma two_points_design_unit :
  (TwoPoints.design F)^T *m TwoPoints.design F \in unitmx.
Proof.
rewrite unitmx_mul unitmx_tr andbb unitmxE /TwoPoints.design /augmented.
have -> : expansion (TwoPoints.features F) 1 = TwoPoints.features F.
  apply/matrixP => i j; rewrite mxE.
  have -> : (j %/ 1 = 0)%N by rewrite divn1 (ord1 j).
  by rewrite expr1 (ord1 j) modn1 -[0%N]/(nat_of_ord (0 : 'I_1)) getE.
have -> : const_mx 1 = col_mx 1%:M 1%:M :> 'M[F]_(1 + 1, 1).
  apply/matrixP => i j; rewrite !mxE.
  by case: splitP => k _; rewrite !mxE !ord1 eqxx.
by rewrite /TwoPoints.features -block_mxEh det_lblock !det1 mulr1 unitr1.
Qed.

(** Degrees 0 and 1 both train the linear model. *)
Lemma two_points_trained (d : int) :
  d = 0 \/ d = 1 ->
  __init__ (TwoPoints.store F) 0 1 d
  = Ok (TwoPoints.trained_store F, TwoPoints.model d).
Proof.
have Hx : read (TwoPoints.store F) 0 = np.Arr2 (TwoPoints.features F) by [].
have Hy : read (TwoPoints.store F) 1 = np.Arr2 (TwoPoints.targets F) by [].
by case=> ->; rewrite (init_valid _ Hx Hy) /= -/(TwoPoints.design F)
                      two_points_design_unit.
Qed.

Lemma two_points_later_intact :
  intact (TwoPoints.trained_store F) (TwoPoints.model 1) (TwoPoints.later_store F).
Proof. by []. Qed.

End TwoPointsFacts.

(** * The claims of the specification *)

Section Claims.

Variable F : realFieldType.
Implicit Types (h : heap F) (self : LinearRegression.t) (d : int).



(** C5.  The constructor raises a [ValueError] exactly when [x_train] is
    not two-dimensional, [y_train] is not two-dimensional, [y_train] does
    not have exactly one column, or the two have different numbers of
    rows; in every other case [_check] returns [None].  An error result
    carries neither a store nor an object. *)
Theorem init_invalid_shape_iff h (x_train y_train : loc) d :
  ((exists msg, __init__ h x_train y_train d = Error (ValueError msg))
     <-> invalid_shape (read h x_train) (read h y_train))
  /\ (_check (read h x_train) (read h y_train) = None
        <-> ~~ invalid_shape (read h x_train) (read h y_train)).
Proof.
case Hinv: (invalid_shape _ _).
  have [msg Hmsg] := check_invalid Hinv.
  split; split=> //; last by rewrite Hmsg.
  by move=> _; exists msg; rewrite /__init__ Hmsg.
have [n [m [X0 [Y [Hx Hy]]]]] := valid_shape_inv (negbT Hinv).
split; split=> //; last by rewrite Hx Hy check_valid.
by case=> msg; rewrite (init_valid d Hx Hy) /=; case: ifP.
Qed.


(** C10.  The degree is not validated.  For a degree below 2, zero and
    negative degrees included, the loop of [_polynomial_features] does not
    run and the array comes back as it is; the constructor then does what
    it does for degree 1: the same error, or the same store (hence the
    same coefficients) and the same attributes apart from the recorded
    degree, and [predict] and [loss] give the same results. *)
Theorem degree_below_two_is_linear h (x_train y_train : loc) d :
  d < 2 ->
  [/\ forall x : np.ndarray F, _polynomial_features x d = Ok x,
      forall e, __init__ h x_train y_train 1 = Error e ->
        __init__ h x_train y_train d = Error e
    & forall h' self, __init__ h x_train y_train 1 = Ok (h', self) ->
        [/\ __init__ h x_train y_train d = Ok (h', with_degree self d),
            para (with_degree self d) = para self,
            forall x, predict h' (with_degree self d) x = predict h' self x
          & loss h' (with_degree self d) = loss h' self]].
Proof.
move=> Hd.
have Hinit : __init__ h x_train y_train d =
    match __init__ h x_train y_train 1 with
    | Ok (h', self) => Ok (h', with_degree self d)
    | Error e => Error e
    end.
  rewrite /__init__ !polynomial_features_small //.
  case: _check => //=; case: _fit => [[h1 [sx sy]]|e] //=.
  case: np.shape => [|a [|b [|? ?]]] //.
  by case: _train => [[h2 sb]|e].
have Hdeg h' self x : __init__ h x_train y_train 1 = Ok (h', self) ->
    predict h' (with_degree self d) x = predict h' self x.
  rewrite /__init__; case: _check => //; case: _polynomial_features => //= p.
  case: _fit => [[h1 [sx sy]]|e] //=; case: np.shape => [|a [|b [|? ?]]] //.
  case: _train => [[h2 sb]|e] //= [_ <-].
  by rewrite /predict /= !polynomial_features_small.
split; first by move=> x; apply: polynomial_features_small.
  by move=> e He; rewrite Hinit He.
move=> h' self Hself; split=> //; first by rewrite Hinit Hself.
by move=> x; apply: Hdeg.
Qed.


(** C4.  For a trained model, [loss] returns the sum over the training
    rows of the squares of [Y - X beta], computed from the three stored
    arrays; the value is not negative and the store is returned as it
    was received. *)
Theorem loss_sum_of_squares h0 (x_train y_train : loc) d (n m : nat)
        (X0 : 'M[F]_(n, m)) (Y : 'M[F]_(n, 1)) h self :
  read h0 x_train = np.Arr2 X0 -> read h0 y_train = np.Arr2 Y ->
  __init__ h0 x_train y_train d = Ok (h, self) ->
  forall h1, intact h self h1 ->
  exists (X : 'M[F]_(n, 1 + blocks d * m)) (B : 'M[F]_(1 + blocks d * m, 1)),
    [/\ read h (LinearRegression.x self) = np.Arr2 X,
        read h (LinearRegression.y self) = np.Arr2 Y,
        read h (LinearRegression.beta self) = np.Arr2 B,
        loss h1 self = Ok (h1, \sum_(i < n) (Y i 0 - (X *m B) i 0) ^+ 2)
      & 0 <= \sum_(i < n) (Y i 0 - (X *m B) i 0) ^+ 2].
Proof.
move=> Hx Hy Hinit h1 [Hx1 Hy1 Hb1].
have [_ Hh Hself] := init_trained Hx Hy Hinit.
set X := augmented _ in Hh; set B := invmx _ *m _ *m Y in Hh.
have HX : read h (LinearRegression.x self) = np.Arr2 X.
  by rewrite Hh Hself /= read_alloc1.
have HB : read h (LinearRegression.beta self) = np.Arr2 B.
  by rewrite Hh Hself /= read_alloc2.
have HY : read h (LinearRegression.y self) = np.Arr2 Y.
  have Hl := read_Arr2_bound Hy.
  by rewrite Hh Hself /= !read_rcons ?size_rcons // ltnW.
exists X, B; split=> //; first by apply: loss_valid; rewrite ?Hx1 ?Hy1 ?Hb1.
by apply: sumr_ge0 => i _; apply: sqr_ge0.
Qed.

(** C6.  For a trained model, [predict] raises a [ValueError] exactly when
    its argument is not two-dimensional or the number of columns of its
    expansion differs from the number of columns of the stored augmented
    matrix minus one.  A two-dimensional argument whose number of columns
    is not the [m] of the training is such a case. *)
Theorem predict_invalid_shape_iff h0 (x_train y_train : loc) d (n m : nat)
        (X0 : 'M[F]_(n, m)) (Y : 'M[F]_(n, 1)) h self h1 (x : loc) :
  read h0 x_train = np.Arr2 X0 -> read h0 y_train = np.Arr2 Y ->
  __init__ h0 x_train y_train d = Ok (h, self) ->
  intact h self h1 ->
  let trained_width := np.dim (read h (LinearRegression.x self)) 1 in
  ((exists msg, predict h1 self x = Error (ValueError msg))
     <-> (np.ndim (read h1 x) != 2%N
          \/ exists2 a, _polynomial_features (read h1 x) d = Ok a
                       & np.dim a 1 != (trained_width - 1)%N))
  /\ (forall (k m' : nat) (Xq : 'M[F]_(k, m')),
        read h1 x = np.Arr2 Xq -> m' != m ->
        exists msg, predict h1 self x = Error (ValueError msg)).
Proof.
move=> Hx Hy Hinit [_ _ Hb1].
have [_ Hh Hself] := init_trained Hx Hy Hinit.
set X := augmented _ in Hh; set B := invmx _ *m _ *m Y in Hh.
have HX : read h (LinearRegression.x self) = np.Arr2 X.
  by rewrite Hh Hself /= read_alloc1.
have HB : read h1 (LinearRegression.beta self) = np.Arr2 B.
  by rewrite Hb1 Hh Hself /= read_alloc2.
have Hdeg : LinearRegression.degree self = d by rewrite Hself.
have Hnf : LinearRegression.num_feature self = (1 + blocks d * m)%N.
  by rewrite Hself.
rewrite HX /np.dim /=.
have Hbad (k m' : nat) (Xq : 'M[F]_(k, m')) :
    read h1 x = np.Arr2 Xq -> (blocks d * m')%N != (1 + blocks d * m - 1)%N ->
    exists msg, predict h1 self x = Error (ValueError msg).
  move=> Hq Hw; eexists; apply: (predict_mismatch Hq); last by rewrite Hnf; apply: Hw.
  by rewrite Hdeg; apply: polynomial_featuresE.
split; last first.
  move=> k m' Xq Hq Hm; apply: (Hbad _ _ _ Hq).
  by rewrite add1n subn1 /= eqn_pmul2l ?blocks_gt0.
split.
  case Hq: (read h1 x) => [k m' Xq|shp elts p].
    move=> Herr; right; exists (np.Arr2 (expansion Xq (blocks d))).
      exact: polynomial_featuresE.
    rewrite /= add1n subn1 /=; apply/negP => /eqP Hw.
    have Hm : m' = m by apply/eqP; rewrite -(eqn_pmul2l (blocks_gt0 d)) Hw.
    subst m'; case: Herr => msg.
    rewrite (@predict_valid _ h1 self x k m _ Xq (expansion Xq (blocks d)) B) //.
    by rewrite Hdeg; apply: polynomial_featuresE.
  by move=> _; left; rewrite /np.ndim /=.
case=> [Hnd|[a Ha Hw]].
  by eexists; rewrite /predict Hnd.
case Hq: (read h1 x) Ha => [k m' Xq|shp elts p] Ha.
  apply: (Hbad _ _ _ Hq); move: Ha Hw; rewrite polynomial_featuresE.
  by case=> <-.
by eexists; rewrite /predict Hq /np.ndim /= p.
Qed.

(** C8, as amended.  For a valid training pair and a degree [d >= 1],
    after a successful construction the array [para] refers to has
    [1 + m * d] rows and one column. *)
Theorem para_shape h0 (x_train y_train : loc) (d : nat) (n m : nat)
        (X0 : 'M[F]_(n, m)) (Y : 'M[F]_(n, 1)) h self :
  read h0 x_train = np.Arr2 X0 -> read h0 y_train = np.Arr2 Y -> (0 < d)%N ->
  __init__ h0 x_train y_train d = Ok (h, self) ->
  np.shape (read h (para self)) = [:: (1 + m * d)%N; 1%N].
Proof.
case: d => // k Hx Hy _ Hinit.
have [_ Hh Hself] := init_trained Hx Hy Hinit.
by rewrite Hh Hself /para /= read_alloc2 /= [(m * _)%N]mulnC.
Qed.

End Claims.

(** ** Sharing between the caller and the object *)

Section Sharing.

Variable F : realFieldType.
Implicit Types (h : heap F) (self : LinearRegression.t) (d : int).

(** [predict] reads its argument and [self.beta]; [loss] reads the three
    arrays of the object. *)
Lemma predict_frame h h1 self (x : loc) :
  read h1 x = read h x ->
  read h1 (LinearRegression.beta self) = read h (LinearRegression.beta self) ->
  returned (predict h1 self x) = returned (predict h self x).
Proof.
move=> Hq Hb; rewrite /predict Hq Hb.
case: ifP => // _; case: _polynomial_features => //= p.
case: ifP => // _; case: np.hstack => //= x1.
by case: np.matmul.
Qed.

Lemma loss_frame h h1 self :
  read h1 (LinearRegression.x self) = read h (LinearRegression.x self) ->
  read h1 (LinearRegression.y self) = read h (LinearRegression.y self) ->
  read h1 (LinearRegression.beta self) = read h (LinearRegression.beta self) ->
  returned (loss h1 self) = returned (loss h self).
Proof.
move=> HX HY HB; rewrite /loss HX HY HB.
by case: np.matmul => //= xb; case: np.subtract.
Qed.


End Sharing.

(** * The claims on concrete training sets *)

Section Instances.

Local Notation store := (TwoPoints.store rat).
Local Notation trained_store := (TwoPoints.trained_store rat).
Local Notation later_store := (TwoPoints.later_store rat).
Local Notation model := TwoPoints.model.




(** C4 on the model of the two points. *)
Lemma loss_sum_of_squares_witness :
  exists (X : 'M[rat]_(2, 2)) (B : 'M[rat]_(2, 1)),
    [/\ read trained_store (LinearRegression.x (model 1)) = np.Arr2 X,
        read trained_store (LinearRegression.y (model 1))
          = np.Arr2 (TwoPoints.targets rat),
        read trained_store (LinearRegression.beta (model 1)) = np.Arr2 B,
        loss later_store (model 1)
          = Ok (later_store,
                \sum_(i < 2) (TwoPoints.targets rat i 0 - (X *m B) i 0) ^+ 2)
      & 0 <= \sum_(i < 2) (TwoPoints.targets rat i 0 - (X *m B) i 0) ^+ 2].
Proof.
exact: (@loss_sum_of_squares rat store 0 1 1 _ _ _ _ _ _ erefl erefl
          (two_points_trained rat (or_intror erefl)) later_store
          (two_points_later_intact rat)).
Defined.

(** C6 on the model of the two points and the query of two columns. *)
Lemma predict_invalid_shape_iff_witness :
  exists msg, predict later_store (model 1) 5 = Error (ValueError msg).
Proof.
have [_ Hwide] :=
  @predict_invalid_shape_iff rat store 0 1 1 _ _ _ _ _ _ later_store 5
    erefl erefl (two_points_trained rat (or_intror erefl))
    (two_points_later_intact rat).
exact: (Hwide 1%N 2%N (TwoPoints.wide_query rat) erefl isT).
Defined.


(** C8, as amended, on the two points with degree 1. *)
Lemma para_shape_witness :
  np.shape (read trained_store (para (model 1))) = [:: (1 + 1 * 1)%N; 1%N].
Proof.
exact: (@para_shape rat store 0 1 1 _ _ _ _ _ _ erefl erefl isT
          (two_points_trained rat (or_intror erefl))).
Defined.

(** C8, the claim as stated.  With degree 0 on one feature the
    construction succeeds and the coefficients have two rows, not the
    [1 + 1 * 0] rows of the claim. *)
Lemma para_shape_degree_zero :
  __init__ store 0 1 0 = Ok (trained_store, model 0)
  /\ np.shape (read trained_store (para (model 0))) <> [:: (1 + 1 * 0)%N; 1%N].
Proof.
split; first exact: (two_points_trained rat (or_introl erefl)).
have -> : read trained_store (para (model 0)) = np.Arr2 (TwoPoints.coefficients rat).
  by [].
by [].
Qed.

(** C10 on the two points with degree -1. *)
Lemma degree_below_two_is_linear_witness :
  [/\ forall x : np.ndarray rat, _polynomial_features x (-1) = Ok x,
      forall e, __init__ store 0 1 1 = Error e -> __init__ store 0 1 (-1) = Error e
    & forall h' self, __init__ store 0 1 1 = Ok (h', self) ->
        [/\ __init__ store 0 1 (-1) = Ok (h', with_degree self (-1)),
            para (with_degree self (-1)) = para self,
            forall x, predict h' (with_degree self (-1)) x = predict h' self x
          & loss h' (with_degree self (-1)) = loss h' self]].
Proof. exact: (@degree_below_two_is_linear rat store 0 1 (-1) isT). Defined.



End Instances.

(** * Least squares *)

Section LeastSquares.

Variable F : realFieldType.
Implicit Types (h : heap F) (self : LinearRegression.t) (d : int).

(** The solution of the normal equation leaves a residual orthogonal to
    every column of [X]. *)
Lemma normal_residual (n w : nat) (X : 'M[F]_(n, w)) (Y : 'M[F]_(n, 1)) :
  X^T *m X \in unitmx ->
  X^T *m (Y - X *m (invmx (X^T *m X) *m X^T *m Y)) = 0.
Proof.
move=> Hu; rewrite mulmxBr -!mulmxA [X^T *m (X *m _)]mulmxA.
by rewrite (mulKVmx Hu) subrr.
Qed.

Lemma sum_sqrD (n : nat) (r u : 'M[F]_(n, 1)) :
  u^T *m r = 0 ->
  \sum_(i < n) ((r + u) i 0) ^+ 2
  = \sum_(i < n) (r i 0) ^+ 2 + \sum_(i < n) (u i 0) ^+ 2.
Proof.
move=> Hur.
have Hdot : \sum_(i < n) r i 0 * u i 0 = 0.
  have := congr1 (fun A : 'M[F]_1 => A 0 0) Hur; rewrite !mxE => H.
  by rewrite -[RHS]H; apply: eq_bigr => i _; rewrite !mxE mulrC.
have -> : \sum_(i < n) ((r + u) i 0) ^+ 2
          = \sum_(i < n) ((r i 0) ^+ 2 + r i 0 * u i 0 *+ 2 + (u i 0) ^+ 2).
  by apply: eq_bigr => i _; rewrite mxE sqrrD.
by rewrite !big_split /= Hdot !addr0.
Qed.

Lemma least_squares (n w : nat) (X : 'M[F]_(n, w)) (Y : 'M[F]_(n, 1))
      (b : 'M[F]_(w, 1)) :
  X^T *m X \in unitmx ->
  \sum_(i < n) (Y i 0 - (X *m (invmx (X^T *m X) *m X^T *m Y)) i 0) ^+ 2
  <= \sum_(i < n) (Y i 0 - (X *m b) i 0) ^+ 2.
Proof.
move=> Hu; set B := invmx _ *m _ *m Y.
have Hsplit : Y - X *m b = (Y - X *m B) + X *m (B - b).
  by rewrite mulmxBr addrA subrK.
have Horth : (X *m (B - b))^T *m (Y - X *m B) = 0.
  by rewrite trmx_mul -mulmxA normal_residual // mulmx0.
have -> : \sum_(i < n) (Y i 0 - (X *m b) i 0) ^+ 2
          = \sum_(i < n) ((Y - X *m b) i 0) ^+ 2.
  by apply: eq_bigr => i _; rewrite !mxE.
have -> : \sum_(i < n) (Y i 0 - (X *m B) i 0) ^+ 2
          = \sum_(i < n) ((Y - X *m B) i 0) ^+ 2.
  by apply: eq_bigr => i _; rewrite !mxE.
rewrite Hsplit (sum_sqrD Horth) lerDl.
by apply: sumr_ge0 => i _; apply: sqr_ge0.
Qed.

(** The arrays of a freshly trained model. *)
Lemma trained_arrays h0 (x_train y_train : loc) d (n m : nat)
      (X0 : 'M[F]_(n, m)) (Y : 'M[F]_(n, 1)) h self :
  read h0 x_train = np.Arr2 X0 -> read h0 y_train = np.Arr2 Y ->
  __init__ h0 x_train y_train d = Ok (h, self) ->
  let X := augmented (expansion X0 (blocks d)) in
  [/\ X^T *m X \in unitmx,
      read h (LinearRegression.x self) = np.Arr2 X,
      read h (LinearRegression.y self) = np.Arr2 Y,
      read h (LinearRegression.beta self)
        = np.Arr2 (invmx (X^T *m X) *m X^T *m Y)
    & read h x_train = np.Arr2 X0
      /\ LinearRegression.degree self = d
      /\ LinearRegression.num_feature self = (1 + blocks d * m)%N].
Proof.
move=> Hx Hy Hinit X.
have [Hu Hh Hself] := init_trained Hx Hy Hinit.
have Hlx := read_Arr2_bound Hx; have Hly := read_Arr2_bound Hy.
rewrite Hh Hself /=; split=> //.
- by rewrite read_alloc1.
- by rewrite !read_rcons ?size_rcons // ltnW.
- by rewrite read_alloc2.
- by rewrite !read_rcons ?size_rcons // ltnW.
Qed.




Lemma Arr2_inj (n m : nat) (A B : 'M[F]_(n, m)) :
  np.Arr2 A = np.Arr2 B -> A = B.
Proof.
move=> H; apply/matrixP => i j.
by have := congr1 (fun a => np.entry a i j) H; rewrite /= !getE.
Qed.


(** X5.  The loss is 0 exactly when [predict] reproduces every training
    target. *)
Theorem loss_zero_iff_interpolates h0 (x_train y_train : loc) d (n m : nat)
        (X0 : 'M[F]_(n, m)) (Y : 'M[F]_(n, 1)) h self :
  read h0 x_train = np.Arr2 X0 -> read h0 y_train = np.Arr2 Y ->
  __init__ h0 x_train y_train d = Ok (h, self) ->
  loss h self = Ok (h, 0) <-> predict h self x_train = Ok (h, np.Arr2 Y).
Proof.
move=> Hx Hy Hinit.
have [Hu HX HY HB [Hq [Hdeg Hnf]]] := trained_arrays Hx Hy Hinit.
have HE : _polynomial_features (np.Arr2 X0) (LinearRegression.degree self)
          = Ok (np.Arr2 (expansion X0 (blocks d))).
  by rewrite Hdeg; apply: polynomial_featuresE.
rewrite (predict_valid Hq HE Hnf HB) (loss_valid HX HB HY).
set P := _ *m _; split.
  case=> /psumr_eq0P H; congr (Ok (_, np.Arr2 _)).
  apply/matrixP => i j; rewrite (ord1 j).
  have /eqP := H (fun i _ => sqr_ge0 _) i isT.
  by rewrite sqrf_eq0 subr_eq0 => /eqP.
move/(congr1 (fun c => if c is Ok (_, a) then a else np.Arr2 Y)).
move=> /= /Arr2_inj ->; congr (Ok (_, _)).
by apply: big1 => i _; rewrite subrr expr0n.
Qed.


Lemma intercept_row (k w : nat) (B : 'M[F]_(1 + w, 1)) (i : 'I_k) :
  (augmented (0 : 'M[F]_(k, w)) *m B) i 0 = B 0 0.
Proof.
rewrite /augmented -{1}[B]vsubmxK mul_row_col mul0mx addr0 mxE big_ord1.
rewrite [const_mx _ _ _]mxE mul1r [LHS]mxE.
by congr (B _ _); apply: val_inj.
Qed.

(** X9.  On rows of zeros [predict] returns the intercept, the first
    coefficient. *)
Theorem predict_zero_is_intercept h0 (x_train y_train : loc) d (n m : nat)
        (X0 : 'M[F]_(n, m)) (Y : 'M[F]_(n, 1)) h self h1 (x : loc) (k : nat) :
  read h0 x_train = np.Arr2 X0 -> read h0 y_train = np.Arr2 Y ->
  __init__ h0 x_train y_train d = Ok (h, self) ->
  intact h self h1 -> read h1 x = np.Arr2 (0 : 'M[F]_(k, m)) ->
  exists (B : 'M[F]_(1 + blocks d * m, 1)) (r : 'M[F]_(k, 1)),
    [/\ read h (para self) = np.Arr2 B,
        predict h1 self x = Ok (h1, np.Arr2 r)
      & forall i, r i 0 = B 0 0].
Proof.
move=> Hx Hy Hinit [_ _ Hb1] Hq.
have [Hu HX HY HB [_ [Hdeg Hnf]]] := trained_arrays Hx Hy Hinit.
have HE : _polynomial_features (np.Arr2 (0 : 'M[F]_(k, m)))
            (LinearRegression.degree self)
          = Ok (np.Arr2 (expansion (0 : 'M[F]_(k, m)) (blocks d))).
  by rewrite Hdeg; apply: polynomial_featuresE.
rewrite -Hb1 in HB.
do 2!eexists; split; [by rewrite -Hb1; exact: HB | exact: (predict_valid Hq HE Hnf HB) |].
move=> i; set B := invmx _ *m _ *m Y.
have -> : expansion (0 : 'M[F]_(k, m)) (blocks d) = 0.
  apply/matrixP => a j; rewrite !mxE.
  have Hj : (j %% m < m)%N.
    by rewrite ltn_pmod //; case: (m) j => [|//] [j]; rewrite muln0.
  by rewrite (get_ord _ (ltn_ord a) Hj) mxE expr0n.
exact: intercept_row.
Qed.

(** A nonzero vector in the kernel of [X] makes [X^T X] singular. *)
Lemma gram_kernel (n w : nat) (X : 'M[F]_(n, w)) (v : 'M[F]_(w, 1)) :
  v != 0 -> X *m v = 0 -> X^T *m X \notin unitmx.
Proof.
move=> Hv HXv; apply/negP => Hu; case/negP: Hv; apply/eqP.
by rewrite -(mulKmx Hu v) -[_ *m X *m v]mulmxA HXv !mulmx0.
Qed.


Lemma square_fit (w : nat) (X : 'M[F]_w) (Y : 'M[F]_(w, 1)) :
  X^T *m X \in unitmx -> X *m (invmx (X^T *m X) *m X^T *m Y) = Y.
Proof.
move=> Hg; have := Hg; rewrite unitmx_mul unitmx_tr andbb -unitmx_tr => Hu.
apply/esym/eqP; rewrite -subr_eq0; apply/eqP.
by rewrite -[LHS](mulKmx Hu) normal_residual // mulmx0.
Qed.


End LeastSquares.

Section Batches.

Variable F : realFieldType.
Implicit Types (h : heap F) (self : LinearRegression.t) (d : int).

Lemma get_col_mx (k1 k2 m : nat) (Q1 : 'M[F]_(k1, m)) (Q2 : 'M[F]_(k2, m))
      (i : 'I_(k1 + k2)) (j : nat) :
  np.get (col_mx Q1 Q2) i j
  = match split i with
    | inl i1 => np.get Q1 i1 j
    | inr i2 => np.get Q2 i2 j
    end.
Proof.
rewrite /np.get valK; case: (insub j) => [c|]; last first.
  by case: split => a; rewrite valK.
by rewrite mxE; case: split => a; rewrite valK.
Qed.

Lemma expansion_col_mx (k1 k2 m : nat) (Q1 : 'M[F]_(k1, m)) (Q2 : 'M[F]_(k2, m))
      (b : nat) :
  expansion (col_mx Q1 Q2) b = col_mx (expansion Q1 b) (expansion Q2 b).
Proof.
apply/matrixP => i j; rewrite !mxE get_col_mx.
by case: split => a; rewrite mxE.
Qed.

Lemma augmented_col_mx (k1 k2 w : nat) (E1 : 'M[F]_(k1, w)) (E2 : 'M[F]_(k2, w)) :
  augmented (col_mx E1 E2) = col_mx (augmented E1) (augmented E2).
Proof.
have H1 : const_mx 1 = col_mx (const_mx 1) (const_mx 1) :> 'M[F]_(k1 + k2, 1).
  by apply/matrixP => i j; rewrite !mxE; case: split => a; rewrite mxE.
by rewrite /augmented H1 -block_mxEh block_mxEv.
Qed.

(** X10.  [predict] works row by row: on two arrays stacked one above the other
    it returns the two predictions stacked. *)
Theorem predict_stacked h0 (x_train y_train : loc) d (n m : nat)
        (X0 : 'M[F]_(n, m)) (Y : 'M[F]_(n, 1)) h self h1
        (x1 x2 x12 : loc) (k1 k2 : nat)
        (Q1 : 'M[F]_(k1, m)) (Q2 : 'M[F]_(k2, m)) :
  read h0 x_train = np.Arr2 X0 -> read h0 y_train = np.Arr2 Y ->
  __init__ h0 x_train y_train d = Ok (h, self) ->
  intact h self h1 ->
  read h1 x1 = np.Arr2 Q1 -> read h1 x2 = np.Arr2 Q2 ->
  read h1 x12 = np.Arr2 (col_mx Q1 Q2) ->
  exists (R1 : 'M[F]_(k1, 1)) (R2 : 'M[F]_(k2, 1)),
    [/\ predict h1 self x1 = Ok (h1, np.Arr2 R1),
        predict h1 self x2 = Ok (h1, np.Arr2 R2)
      & predict h1 self x12 = Ok (h1, np.Arr2 (col_mx R1 R2))].
Proof.
move=> Hx Hy Hinit [_ _ Hb1] H1 H2 H12.
have [Hu HX HY HB [_ [Hdeg Hnf]]] := trained_arrays Hx Hy Hinit.
rewrite -Hb1 in HB.
have HE k (Q : 'M[F]_(k, m)) :
    _polynomial_features (np.Arr2 Q) (LinearRegression.degree self)
    = Ok (np.Arr2 (expansion Q (blocks d))).
  by rewrite Hdeg; apply: polynomial_featuresE.
do 2!eexists; split.
- exact: (predict_valid H1 (HE _ _) Hnf HB).
- exact: (predict_valid H2 (HE _ _) Hnf HB).
- rewrite (predict_valid H12 (HE _ _) Hnf HB).
  by rewrite expansion_col_mx augmented_col_mx mul_col_mx.
Qed.

End Batches.

(** * demo/utility.py *)

Section RootProjectFacts.

Variable joinpath : utility.Path -> string -> utility.Path.

Local Notation florentino := "florentino"%string.

Lemma name_rcons (p : utility.Path) (c : string) :
  utility.name (rcons p c) = c.
Proof. by rewrite /utility.name last_rcons. Qed.

Lemma parent_rcons (p : utility.Path) (c : string) :
  utility.parent (rcons p c) = p.
Proof. by rewrite /utility.parent size_rcons /= -cats1 take_size_cat. Qed.

Lemma ascend_found (p q : utility.Path) (fuel : nat) :
  florentino \notin q ->
  utility.ascend fuel (p ++ florentino :: q)
  = if (size q < fuel)%N then Some (rcons p florentino) else None.
Proof.
elim/last_ind: q fuel => [|q c IH] fuel.
  by case: fuel => [|k] //= _; rewrite cats1 name_rcons eqxx.
rewrite mem_rcons inE negb_or eq_sym => /andP [Hc Hq].
case: fuel => [|k] //=.
rewrite -rcons_cons -rcons_cat name_rcons Hc parent_rcons IH //.
by rewrite size_rcons ltnS.
Qed.

Lemma ascend_lost (cwd : utility.Path) (fuel : nat) :
  florentino \notin cwd -> utility.ascend fuel cwd = None.
Proof.
elim: fuel cwd => [|k IH] cwd //= Hcwd.
have -> : utility.name cwd != florentino.
  case: (lastP cwd) Hcwd => [|p c] //.
  by rewrite name_rcons mem_rcons inE negb_or eq_sym => /andP [].
apply: IH; apply: contra Hcwd; exact: mem_take.
Qed.

(** X11.  When a component of the working directory is named [florentino],
    [root_project] ends after as many steps as there are components below
    the last such component and returns the path up to it, joined with
    [cd_to] when that is a nonempty string. *)
Theorem root_project_nearest (p q : utility.Path) (fuel : nat)
        (cd_to : option string) :
  florentino \notin q ->
  utility.root_project joinpath fuel (p ++ florentino :: q) cd_to
  = if (size q < fuel)%N then
      Some (if cd_to is Some s then
              if s != EmptyString then joinpath (rcons p florentino) s
              else rcons p florentino
            else rcons p florentino)
    else None.
Proof.
by move=> Hq; rewrite /utility.root_project ascend_found //; case: ifP.
Qed.

(** X12.  When no component of the working directory is named [florentino],
    the loop climbs to the root and stays there: [root_project] does not
    return, whatever the bound. *)
Theorem root_project_diverges (cwd : utility.Path) (fuel : nat)
        (cd_to : option string) :
  florentino \notin cwd ->
  utility.root_project joinpath fuel cwd cd_to = None.
Proof. by move=> Hcwd; rewrite /utility.root_project ascend_lost. Qed.

End RootProjectFacts.

(** * demo/mnist/main.py *)

Section DrawAppFacts.

Import DrawApp.

Lemma joins_cons (a e : Event.t) (evs : seq Event.t) :
  joins a (e :: evs)
  = (if pen_down a then [:: (a, e)] else [::]) ++ joins e evs.
Proof. by rewrite /joins /=; case: ifP. Qed.

Lemma paint_from (evs : seq Event.t) : forall (self : DrawApp.t) (ox oy : int),
  old_x self = Some ox -> old_y self = Some oy ->
  let a := Event.Build ox oy in
  let s' := foldl paint self evs in
  [/\ canvas s' = canvas self ++ [seq canvas_segment p.1 p.2 | p <- joins a evs],
      image s' = image self ++ [seq image_segment p.1 p.2 | p <- joins a evs],
      old_x s' = Some (Event.x (last a evs))
    & old_y s' = Some (Event.y (last a evs))].
Proof.
elim: evs => [|e evs IH] [c im ? ?] ox oy /= -> ->.
  by rewrite !cats0.
set s1 := paint _ e.
have [-> -> -> ->] := IH s1 (Event.x e) (Event.y e) erefl erefl.
rewrite joins_cons /s1 /paint /pen_down /=.
by case: ifP => _ /=; rewrite ?cat_rcons; case: (e).
Qed.

(** X13.  A stroke.  From a state without last position, as [__init__] and a
    button release leave it, the motions [e :: evs] add to the canvas and
    to the image one segment for each pair of consecutive positions whose
    first position has both coordinates different from 0, in order, and
    nothing else; a position on the line [x = 0] or [y = 0] starts no
    segment. *)
Theorem paint_stroke (self : DrawApp.t) (e : Event.t) (evs : seq Event.t) :
  old_x self = None -> old_y self = None ->
  let s' := foldl paint self (e :: evs) in
  [/\ canvas s' = canvas self ++ [seq canvas_segment p.1 p.2 | p <- joins e evs],
      image s' = image self ++ [seq image_segment p.1 p.2 | p <- joins e evs],
      old_x s' = Some (Event.x (last e evs))
    & old_y s' = Some (Event.y (last e evs))].
Proof.
case: self => c im ? ? /= -> ->.
set s1 := paint _ e.
have [-> -> -> ->] := @paint_from evs s1 (Event.x e) (Event.y e) erefl erefl.
by rewrite /s1 /paint /=; case: (e).
Qed.

Lemma RATIO_gt0 : 0 < RATIO.
Proof. by []. Qed.

(** The pixel of a coordinate lies in the image exactly when the
    coordinate lies in the canvas. *)
Lemma pixel_in_image (x : int) :
  (0 <= (x %/ RATIO)%Z < 28) = (0 <= x < IMG_SIZE).
Proof. by rewrite (divz_ge0 _ RATIO_gt0) (ltz_divLR _ _ RATIO_gt0). Qed.

Lemma in_canvas_image (x y : int) :
  in_image ((x %/ RATIO)%Z, (y %/ RATIO)%Z) = in_canvas x y.
Proof. by rewrite /in_image /in_canvas /= !pixel_in_image. Qed.

Lemma dispatch_ok (self : DrawApp.t) (cb : callback) :
  motion_in_canvas cb -> drawing_ok self -> drawing_ok (dispatch self cb).
Proof.
case: self => c im ox oy; case: cb => [[x y]| e |]; rewrite /drawing_ok /=.
- move=> Hxy; case: ox oy => [ox|] [oy|] //= /andP [Him Ho]; rewrite Hxy andbT //.
  by case: ifP => _ //=; rewrite all_rcons /= Him !in_canvas_image Ho Hxy.
- by move=> _ /andP [-> _].
- by move=> _ /andP [_ ->].
Qed.

Lemma run_ok (cbs : seq callback) (self : DrawApp.t) :
  drawing_ok self -> all motion_in_canvas cbs ->
  drawing_ok (foldl dispatch self cbs).
Proof.
elim: cbs self => [|cb cbs IH] self //= Hs /andP [Hcb Hcbs].
by apply: IH => //; apply: dispatch_ok.
Qed.

(** X14.  Whatever the user does, as long as the pointer moves inside the
    canvas every command drawn on the current image has both end points
    inside the 28 by 28 image, and the two halves of the last position
    are set together. *)
Theorem drawing_stays_in_image (cbs : seq callback) :
  all motion_in_canvas cbs ->
  let self := foldl dispatch init cbs in
  all command_in_image (image self)
  /\ (old_x self == None) = (old_y self == None).
Proof.
move=> Hcbs self.
have := run_ok (isT : drawing_ok init) Hcbs; rewrite -/self /drawing_ok.
case/andP => -> /=.
by case: (old_x self) (old_y self) => [x|] [y|].
Qed.

Lemma floor_half (D x : int) :
  x = Num.floor (D%:~R / 2 : rat) -> (x + x <= D) && (D <= x + x + 1).
Proof.
move=> Hx.
have /andP [Hlo Hhi] := floor_itv (D%:~R / 2 : rat).
rewrite -Hx in Hlo Hhi.
have H2 : (2 : rat) = (2 : int)%:~R by [].
have Hm (z : int) : z * 2 = z + z by rewrite mulr2n mulrDr mulr1.
apply/andP; split.
  by move: Hlo; rewrite ler_pdivlMr // H2 -intrM ler_int Hm.
move: Hhi; rewrite ltr_pdivrMr // H2 -intrM ltr_int Hm.
by rewrite addrACA addrA ltzD1.
Qed.

Lemma rat_half (s w : int) :
  (s%:~R / 2 - w%:~R / 2 : rat) = (s - w)%:~R / 2.
Proof. by rewrite -mulrBl -rmorphB. Qed.

Lemma half_ge0 (D : int) : (0 <= (D%:~R / 2 : rat)) = (0 <= D).
Proof. by rewrite pmulr_lge0 ?invr_gt0 // ler0z. Qed.

(** X15.  [position s w] centres a window of width [w] on a screen of width
    [s]: when the window fits, the left margin is not negative and the
    right margin is the left margin or one more; when it does not fit,
    the offset is not positive and the overhang on the right is the
    overhang on the left or one more.  The two true divisions are exact
    on machine floats for integers of this size. *)
Theorem position_centres (s w : int) :
  if w <= s then
    (0 <= position s w)
    && (position s w <= s - w - position s w <= position s w + 1)
  else
    (position s w <= 0)
    && (position s w - 1 <= s - w - position s w <= position s w).
Proof.
rewrite /position /py_int rat_half half_ge0 subr_ge0.
case Hws: (w <= s).
  have /andP [Hlo Hhi] := floor_half (erefl (Num.floor ((s - w)%:~R / 2 : rat))).
  by rewrite floor_ge0 half_ge0 subr_ge0 Hws lerBrDr Hlo lerBlDr addrAC Hhi.
rewrite ceilNfloor -mulNr -rmorphN /=.
set y := Num.floor _.
have /andP [Hlo Hhi] := floor_half (erefl y : y = Num.floor ((- (s - w))%:~R / 2 : rat)).
have Hy : 0 <= y.
  by rewrite /y floor_ge0 half_ge0 oppr_ge0 subr_le0 ltW // ltNge Hws.
rewrite oppr_le0 Hy /= opprK.
apply/andP; split.
  by rewrite -lerBlDr -!opprD lerNl addrAC.
by rewrite -lerBrDr -opprD lerNr.
Qed.

End DrawAppFacts.

(** * The further properties on concrete data *)

Section MoreInstances.

Local Notation store := (TwoPoints.store rat).
Local Notation trained_store := (TwoPoints.trained_store rat).
Local Notation later_store := (TwoPoints.later_store rat).
Local Notation model := TwoPoints.model.
Local Notation trained := (two_points_trained rat (or_intror erefl)).

Lemma line_fit_trained :
  __init__ (LineFit.store rat) 0 1 1
  = Ok (LineFit.trained_store rat, LineFit.model).
Proof.
have Hx : read (LineFit.store rat) 0 = np.Arr2 (TwoPoints.features rat) by [].
have Hy : read (LineFit.store rat) 1 = np.Arr2 (LineFit.targets rat) by [].
by rewrite (init_valid _ Hx Hy) /= -/(TwoPoints.design rat) two_points_design_unit.
Qed.





(** X5 on concrete data. *)
Lemma loss_zero_iff_interpolates_witness :
  loss trained_store (model 1) = Ok (trained_store, 0)
  <-> predict trained_store (model 1) 0
      = Ok (trained_store, np.Arr2 (TwoPoints.targets rat)).
Proof.
exact: (@loss_zero_iff_interpolates rat store 0 1 1 _ _ _ _ _ _
          erefl erefl trained).
Defined.




(** X9 on concrete data. *)
Lemma predict_zero_is_intercept_witness :
  exists (B : 'M[rat]_(2, 1)) (r : 'M[rat]_(1, 1)),
    [/\ read trained_store (para (model 1)) = np.Arr2 B,
        predict later_store (model 1) 2 = Ok (later_store, np.Arr2 r)
      & forall i, r i 0 = B 0 0].
Proof.
exact: (@predict_zero_is_intercept rat store 0 1 1 _ _ _ _ _ _ later_store 2 1
          erefl erefl trained (two_points_later_intact rat) erefl).
Defined.

(** X10 on concrete data. *)
Lemma predict_stacked_witness :
  exists (R1 R2 : 'M[rat]_(1, 1)),
    [/\ predict (Batch.store rat) (model 1) 2 = Ok (Batch.store rat, np.Arr2 R1),
        predict (Batch.store rat) (model 1) 2 = Ok (Batch.store rat, np.Arr2 R2)
      & predict (Batch.store rat) (model 1) 5
        = Ok (Batch.store rat, np.Arr2 (col_mx R1 R2))].
Proof.
have Hi : intact trained_store (model 1) (Batch.store rat) by [].
exact: (@predict_stacked rat store 0 1 1 _ _ _ _ _ _ (Batch.store rat) 2 2 5
          _ _ _ _ erefl erefl trained Hi erefl erefl erefl).
Defined.

(** X11 on concrete data. *)
Lemma root_project_nearest_witness :
  utility.root_project Session.join 3 Session.inside (Some "datasets"%string)
  = Some [:: "home"; "user"; "florentino"; "datasets"]%string.
Proof.
exact: (@root_project_nearest Session.join [:: "home"; "user"]%string
          [:: "demo"; "mnist"]%string 3 (Some "datasets"%string) isT).
Defined.

(** X12 on concrete data. *)
Lemma root_project_diverges_witness :
  utility.root_project Session.join 1000 Session.outside None = None.
Proof.
exact: (@root_project_diverges Session.join Session.outside 1000 None isT).
Defined.

(** X13 on concrete data. *)
Lemma paint_stroke_witness :
  let s' := foldl DrawApp.paint DrawApp.init Session.stroke in
  [/\ DrawApp.canvas s'
        = [:: DrawApp.create_line 30 45 0 50 20 "white";
              DrawApp.create_line 70 85 95 99 20 "white"],
      DrawApp.image s'
        = [:: DrawApp.line (1, 2) (0, 2) "white" 2;
              DrawApp.line (3, 4) (4, 4) "white" 2],
      DrawApp.old_x s' = Some 95
    & DrawApp.old_y s' = Some 99].
Proof.
exact: (@paint_stroke DrawApp.init (DrawApp.Event.Build 30 45)
          (behead Session.stroke) erefl erefl).
Defined.

(** X14 on concrete data. *)
Lemma drawing_stays_in_image_witness :
  let self := foldl dispatch DrawApp.init Session.clicks in
  all command_in_image (DrawApp.image self)
  /\ (DrawApp.old_x self == None) = (DrawApp.old_y self == None).
Proof. exact: (@drawing_stays_in_image Session.clicks isT). Defined.

End MoreInstances.
